(** * Field selection and strict input validation for serializers

    A shallow embedding of [contrib/drf_introspection/serializers.py]:
    the three mixins [IntrospectableSerializerMixin],
    [DynamicFieldsSerializerMixin] and [StrictSerializerMixin], with the
    helpers [_error_with_fields], [_verify_field_names] and
    [_pop_field_list].

    Python dictionaries keyed by field name are finite maps, Python sets of
    names are finite sets, raised exceptions are values of an error monad.
    The payload handed to [to_internal_value] keeps its keys in order (an
    association list), since the read-only message lists them in iteration
    order. *)

From Stdlib Require Import String Ascii.
From stdpp Require Import gmap strings list fin_maps.

Set Warnings "-clear-no-such-hyp".

(** ** Python strings: [split], [join] and [%]-formatting *)

Module PyStr.

(** The characters the functions below build with or test for. *)
Definition dquote : string := String (ascii_of_nat 34) EmptyString.
Definition comma : ascii := ascii_of_nat 44.
Definition percent : ascii := ascii_of_nat 37.
Definition char_s : ascii := ascii_of_nat 115.

(** [s.split(',')]: the pieces between commas; never the empty list. *)
Fixpoint split_comma (s : string) : list string :=
  match s with
  | EmptyString => [EmptyString]
  | String c rest =>
      if Ascii.eqb c comma then EmptyString :: split_comma rest
      else match split_comma rest with
           | [] => [String c EmptyString]
           | w :: ws => String c w :: ws
           end
  end.

(** [sep.join(l)]. *)
Fixpoint join (sep : string) (l : list string) : string :=
  match l with
  | [] => EmptyString
  | [x] => x
  | x :: xs => x +:+ sep +:+ join sep xs
  end.

(** Iterating a string yields its characters as one-character strings. *)
Fixpoint chars (s : string) : list string :=
  match s with
  | EmptyString => []
  | String c rest => String c EmptyString :: chars rest
  end.

(** [fmt % args] for a format whose only directives are [%s]; [None] is
    the [TypeError] Python raises when directives and arguments do not
    match up. *)
Fixpoint format (fmt : string) (args : list string) : option string :=
  match fmt with
  | EmptyString => match args with [] => Some EmptyString | _ :: _ => None end
  | String c rest =>
      match rest with
      | String d rest' =>
          if Ascii.eqb c percent && Ascii.eqb d char_s then
            match args with
            | a :: args' => (fun r => a +:+ r) <$> format rest' args'
            | [] => None
            end
          else String c <$> format rest args
      | EmptyString => String c <$> format rest args
      end
  end.

End PyStr.

(** ** Exceptions and the two monads *)

Inductive exn : Type :=
| FieldError (msg : string)        (* django.core.exceptions.FieldError *)
| ValidationError (msg : string)   (* rest_framework.serializers.ValidationError *)
| KeyError (key : string)
| TypeError.

Inductive result (A : Type) : Type :=
| Return (a : A)
| Raise (e : exn).
Arguments Return {A} a.
Arguments Raise {A} e.

#[global] Instance result_ret : MRet result := @Return.
#[global] Instance result_bind : MBind result := λ A B k m,
  match m with
  | Return a => k a
  | Raise e => Raise e
  end.

(** The methods [to_internal_value] calls, in the order a run enters them. *)
Inductive call : Type :=
| CallGetAllowedKeys
| CallMaybeRaiseError
| CallCheckReadOnlyFields
| CallSuperToInternalValue.

(** A run of [to_internal_value]: the calls entered so far and the outcome. *)
Definition traced (A : Type) : Type := (list call * result A)%type.

#[global] Instance traced_bind : MBind traced := λ A B k m,
  match m with
  | (t, Return a) => let '(t', r) := k a in (t ++ t', r)
  | (t, Raise e) => (t, Raise e)
  end.

(** Entering method [c], whose body runs to the outcome [m]. *)
Definition enter {A : Type} (c : call) (m : result A) : traced A := ([c], m).

Definition calls {A : Type} (m : traced A) : list call := m.1.
Definition outcome {A : Type} (m : traced A) : result A := m.2.

#[global] Instance call_eq_dec : EqDecision call.
Proof. solve_decision. Defined.

(** ** Data model *)

(** A serializer field, as far as this module looks at it: the [read_only]
    attribute, read with [getattr(field, 'read_only', False)], so it may be
    missing. *)
Record Field : Type := mkField { read_only : option bool }.

(** A value passed as [fields], [exclude_fields] or [extra_fields]: a list
    of strings or one string. *)
Inductive names_arg : Type :=
| ArgList (l : list string)
| ArgStr (s : string).

(** The request found in the serializer's context; [query_params] maps a
    parameter name to the list of its values. *)
Record Request : Type := mkRequest { query_params : gmap string (list string) }.

(** The serializer's [context] dictionary, with the two entries that are
    read: ['request'] and ['top_level'] (each may be missing; the truth
    value of ['top_level'] is what matters). *)
Record Context : Type := mkContext {
  ctx_request : option Request;
  ctx_top_level : option bool
}.

(** What a serializer class fixes: the optional class attribute
    [extra_fields] and the fields the framework declares for it, which is
    what [self.fields] holds once the framework's constructor has run. *)
Record SerializerClass : Type := mkClass {
  cls_extra_fields : option names_arg;
  cls_fields : gmap string Field
}.

(** Keyword arguments of the constructor; [None] is an absent argument.
    [kw_context] is what [self.context] evaluates to after the framework's
    constructor, [None] when there is no such attribute or it is not a
    dictionary. *)
Record Kwargs : Type := mkKwargs {
  kw_fields : option names_arg;
  kw_exclude_fields : option names_arg;
  kw_extra_fields : option names_arg;
  kw_context : option Context
}.

(** The instance state that the mixins read and write. *)
Record Serializer : Type := mkSerializer {
  fields : gmap string Field;
  _extra_fields : gset string;
  context : option Context
}.

(** Payloads: Python values as they come out of a request parser. A
    dictionary is the list of its items in iteration order; its keys are
    distinct in Python, which nothing below relies on. *)
#[warnings="-register-all"] Inductive pyobj : Type :=
| PyNone
| PyBool (b : bool)
| PyInt (n : Z)
| PyStr (s : string)
| PyList (xs : list pyobj)
| PyDict (items : list (string * pyobj)).

Definition dict_keys (items : list (string * pyobj)) : list string := items.*1.

(** ** Module-level helpers *)

(** [', '.join('"%s"' % f for f in fields)] substituted into [message]. *)
Definition quoted (f : string) : string := PyStr.dquote +:+ f +:+ PyStr.dquote.

Definition _error_with_fields (message : string) (fields : list string) : result string :=
  match PyStr.format message [PyStr.join ", " (quoted <$> fields)] with
  | Some msg => Return msg
  | None => Raise TypeError
  end.

Definition unknown_filter_format : string :=
  "Unknown fields in " +:+ PyStr.dquote +:+ "%s" +:+ PyStr.dquote +:+ " filter: %s".

(** A Python set is iterated in some order of its elements; [elements] is
    that order here. An empty list or set is false. *)
Definition _verify_field_names (fields : list string) (valid_fields : gset string)
    (filter_name : string) : result unit :=
  match fields with
  | [] => Return ()
  | _ :: _ =>
      let invalid_field_names : gset string := list_to_set fields ∖ valid_fields in
      if decide (invalid_field_names = ∅) then Return ()
      else
        match PyStr.format unknown_filter_format
                [filter_name; PyStr.join ", " (elements invalid_field_names)] with
        | Some error => Raise (FieldError error)
        | None => Raise TypeError
        end
  end.

(** [args.pop(argument_name, [])], split on commas unless it is a list. *)
Definition _pop_field_list (arg : option names_arg) : list string :=
  match default (ArgList []) arg with
  | ArgList values => values
  | ArgStr values => PyStr.split_comma values
  end.

(** The items [set.update] adds when handed the argument. *)
Definition iterate (arg : names_arg) : list string :=
  match arg with
  | ArgList l => l
  | ArgStr s => PyStr.chars s
  end.

(** ** IntrospectableSerializerMixin *)

Definition Introspectable_init (cls : SerializerClass) (kwargs : Kwargs) : Serializer :=
  let extra0 : gset string := ∅ in
  let extra1 :=
    match cls_extra_fields cls with
    | Some names => extra0 ∪ list_to_set (iterate names)
    | None => extra0
    end in
  let extra2 := extra1 ∪ list_to_set (iterate (default (ArgList []) (kw_extra_fields kwargs))) in
  (* the framework's constructor *)
  {| fields := cls_fields cls; _extra_fields := extra2; context := kw_context kwargs |}.

Definition get_allowed_keys (self : Serializer) : gset string :=
  dom (fields self) ∪ _extra_fields self.

(** ** DynamicFieldsSerializerMixin *)

(** [QueryDict.getlist(key, [])]. *)
Definition getlist (req : Request) (key : string) : list string :=
  default [] (query_params req !! key).

(** [self.context.get('top_level', True)]: an instance is top-level unless
    its context says otherwise. *)
Definition top_level (ctx : Context) : bool := default true (ctx_top_level ctx).

(** The two selection lists after the request's parameters have been
    appended: the first part of the constructor, up to the verification. *)
Definition selection_lists (kwargs : Kwargs) (context : option Context)
    : list string * list string :=
  let fields := _pop_field_list (kw_fields kwargs) in
  let exclude_fields := _pop_field_list (kw_exclude_fields kwargs) in
  match context with
  | Some ctx =>
      let request := ctx_request ctx in
      match request with
      | Some req =>
          if top_level ctx
          then (fields ++ getlist req "fields",
                exclude_fields ++ getlist req "exclude_fields")
          else (fields, exclude_fields)
      | None => (fields, exclude_fields)
      end
  | None => (fields, exclude_fields)
  end.

(** [d.pop(k)] raises [KeyError] on a missing key; [d.pop(k, None)] does not. *)
Definition pop (k : string) (d : gmap string Field) : result (gmap string Field) :=
  match d !! k with
  | Some _ => Return (delete k d)
  | None => Raise (KeyError k)
  end.

Definition pop_default (k : string) (d : gmap string Field) : gmap string Field :=
  delete k d.

(** [for field_name in names: d.pop(field_name)]. *)
Fixpoint pop_each (names : list string) (d : gmap string Field)
    : result (gmap string Field) :=
  match names with
  | [] => Return d
  | k :: rest => d' ← pop k d; pop_each rest d'
  end.

Fixpoint pop_each_default (names : list string) (d : gmap string Field)
    : gmap string Field :=
  match names with
  | [] => d
  | k :: rest => pop_each_default rest (pop_default k d)
  end.

Definition set_fields (self : Serializer) (d : gmap string Field) : Serializer :=
  {| fields := d; _extra_fields := _extra_fields self; context := context self |}.

Definition Dynamic_init (cls : SerializerClass) (kwargs : Kwargs) : result Serializer :=
  let self := Introspectable_init cls kwargs in
  let '(fields_, exclude_fields) := selection_lists kwargs (context self) in
  let valid_fields := dom (fields self) in
  _verify_field_names fields_ valid_fields "fields";;
  _verify_field_names exclude_fields valid_fields "exclude_fields";;
  match fields_ with
  | _ :: _ =>
      let fields_set : gset string := list_to_set fields_ in
      let fields_set :=
        match exclude_fields with
        | _ :: _ => fields_set ∖ list_to_set exclude_fields
        | [] => fields_set
        end in
      d ← pop_each (elements (valid_fields ∖ fields_set)) (fields self);
      Return (set_fields self d)
  | [] =>
      match exclude_fields with
      | _ :: _ =>
          Return (set_fields self
                    (pop_each_default (elements (list_to_set exclude_fields : gset string))
                       (fields self)))
      | [] => Return self
      end
  end.

(** ** StrictSerializerMixin *)

(** The mixin has no constructor of its own: building an instance runs
    [DynamicFieldsSerializerMixin.__init__], which runs
    [IntrospectableSerializerMixin.__init__] through [super]. *)
Definition Strict_init : SerializerClass → Kwargs → result Serializer := Dynamic_init.

Definition maybe_raise_error (extra_fields : gset string) : result unit :=
  if decide (extra_fields = ∅) then Return ()
  else
    msg ← _error_with_fields "Unknown fields: %s." (elements extra_fields);
    Raise (FieldError msg).

Definition _is_read_only (self : Serializer) (field_name : string) : bool :=
  match fields self !! field_name with
  | None => false
  | Some field => default false (read_only field)
  end.

Definition check_read_only_fields (self : Serializer) (keys : list string) : result unit :=
  let updated_read_only := filter (λ key, _is_read_only self key = true) keys in
  match updated_read_only with
  | [] => Return ()
  | _ :: _ =>
      msg ← _error_with_fields "Can not update read only fields: %s." updated_read_only;
      Raise (FieldError msg)
  end.

Section StrictSerializer.

(** The framework's own [to_internal_value], reached through [super]. *)
Variable super_to_internal_value : Serializer → pyobj → result pyobj.

Definition to_internal_value (self : Serializer) (data : pyobj) : traced pyobj :=
  match data with
  | PyDict items =>
      allowed ← enter CallGetAllowedKeys (Return (get_allowed_keys self));
      let extra_fields : gset string := list_to_set (dict_keys items) ∖ allowed in
      enter CallMaybeRaiseError (maybe_raise_error extra_fields);;
      enter CallCheckReadOnlyFields (check_read_only_fields self (dict_keys items));;
      enter CallSuperToInternalValue (super_to_internal_value self data)
  | _ => ([], Raise (ValidationError "Invalid input: must be a dict."))
  end.

End StrictSerializer.

(** ** Names used in the statements *)

(** The three messages, as the text around the listed names. *)
Definition unknown_filter_message (filter_name : string) (names : list string) : string :=
  "Unknown fields in " +:+ PyStr.dquote +:+ filter_name +:+ PyStr.dquote
    +:+ " filter: " +:+ PyStr.join ", " names.

Definition unknown_fields_message (names : list string) : string :=
  "Unknown fields: " +:+ PyStr.join ", " (quoted <$> names) +:+ ".".

Definition read_only_message (names : list string) : string :=
  "Can not update read only fields: " +:+ PyStr.join ", " (quoted <$> names) +:+ ".".

Definition invalid_input : exn := ValidationError "Invalid input: must be a dict.".

(** The names of a selection list that are not declared. *)
Definition unknown_names (names : list string) (valid_fields : gset string) : gset string :=
  list_to_set names ∖ valid_fields.

(** The names the selection keeps, in the spec's words:
    [(include ? include : declared) − exclude]. *)
Definition spec_selected (F : gset string) (I E : list string) : gset string :=
  match I with
  | [] => F
  | _ :: _ => list_to_set I
  end ∖ list_to_set E.

(** The field collection a construction ends with, or the error it raised. *)
Definition field_collection (r : result Serializer) : result (gmap string Field) :=
  s ← r; Return (fields s).

Definition with_context (kwargs : Kwargs) (ctx : option Context) : Kwargs :=
  {| kw_fields := kw_fields kwargs; kw_exclude_fields := kw_exclude_fields kwargs;
     kw_extra_fields := kw_extra_fields kwargs; kw_context := ctx |}.

Definition with_request (ctx : Context) (request : option Request) : Context :=
  {| ctx_request := request; ctx_top_level := ctx_top_level ctx |}.

(** [isinstance(data, dict)]. *)
Definition isinstance_dict (data : pyobj) : bool :=
  match data with
  | PyDict _ => true
  | _ => false
  end.

(** The payload keys outside the allowed set, and the payload keys naming a
    read-only field (in payload order). *)
Definition unknown_keys (self : Serializer) (items : list (string * pyobj)) : gset string :=
  list_to_set (dict_keys items) ∖ get_allowed_keys self.

Definition read_only_keys (self : Serializer) (items : list (string * pyobj)) : list string :=
  filter (λ key, _is_read_only self key = true) (dict_keys items).

(** The order in which a full run enters the methods. *)
Definition full_run : list call :=
  [CallGetAllowedKeys; CallMaybeRaiseError; CallCheckReadOnlyFields; CallSuperToInternalValue].

(** Whether a character occurs in a string. *)
Fixpoint has_char (c : ascii) (s : string) : bool :=
  match s with
  | EmptyString => false
  | String d rest => Ascii.eqb d c || has_char c rest
  end.

Definition comma_free (s : string) : Prop := has_char PyStr.comma s = false.
Definition percent_free (s : string) : Prop := has_char PyStr.percent s = false.

(** The keyword arguments with [fields] and [exclude_fields] replaced. *)
Definition with_selection (kwargs : Kwargs) (fields_ exclude_fields : option names_arg)
    : Kwargs :=
  {| kw_fields := fields_; kw_exclude_fields := exclude_fields;
     kw_extra_fields := kw_extra_fields kwargs; kw_context := kw_context kwargs |}.

(** The names a class or a keyword argument contributes as extra fields. *)
Definition extra_names (arg : option names_arg) : gset string :=
  list_to_set (iterate (default (ArgList []) arg)).

(** ** Concrete inputs *)

Module Examples.

Definition rw : Field := {| read_only := Some false |}.
Definition ro : Field := {| read_only := Some true |}.

(** A class with fields [name] and [slug], and a read-only [id]. *)
Definition cls : SerializerClass :=
  {| cls_extra_fields := None;
     cls_fields := <["id" := ro]> (<["name" := rw]> (<["slug" := rw]> ∅)) |}.

Definition no_kwargs : Kwargs :=
  {| kw_fields := None; kw_exclude_fields := None;
     kw_extra_fields := None; kw_context := None |}.

(** A framework conversion that accepts every payload as it is. *)
Definition accept_all (_ : Serializer) (data : pyobj) : result pyobj := Return data.

End Examples.

Module IncludeExcludeRun.
(** [fields=['id', 'name']] with [?exclude_fields=id] in the request. *)
Definition request : Request := {| query_params := {[ "exclude_fields" := ["id"] ]} |}.
Definition kwargs : Kwargs :=
  {| kw_fields := Some (ArgList ["id"; "name"]);
     kw_exclude_fields := None;
     kw_extra_fields := None;
     kw_context := Some {| ctx_request := Some request; ctx_top_level := None |} |}.
End IncludeExcludeRun.

Module IncludeRun.
Definition empty_include : Kwargs :=
  {| kw_fields := Some (ArgList []); kw_exclude_fields := None;
     kw_extra_fields := None; kw_context := None |}.
Definition include_name : Kwargs :=
  {| kw_fields := Some (ArgList ["name"]); kw_exclude_fields := None;
     kw_extra_fields := None; kw_context := None |}.
End IncludeRun.

Module UnknownRun.
Definition both_unknown : Kwargs :=
  {| kw_fields := Some (ArgList ["x"]); kw_exclude_fields := Some (ArgList ["y"]);
     kw_extra_fields := None; kw_context := None |}.
Definition exclude_unknown : Kwargs :=
  {| kw_fields := Some (ArgList ["name"]); kw_exclude_fields := Some (ArgStr "y,id");
     kw_extra_fields := None; kw_context := None |}.
End UnknownRun.

Module ExtraRun.
Definition as_string : Kwargs :=
  {| kw_fields := None; kw_exclude_fields := None;
     kw_extra_fields := Some (ArgStr "ab,cd"); kw_context := None |}.
Definition as_list : Kwargs :=
  {| kw_fields := None; kw_exclude_fields := None;
     kw_extra_fields := Some (ArgList ["ab"; "cd"]); kw_context := None |}.
End ExtraRun.

Module RequestRun.
Definition request : Request := {| query_params := {[ "fields" := ["name"] ]} |}.
Definition nested : Context := {| ctx_request := None; ctx_top_level := Some false |}.
Definition unmarked : Context := {| ctx_request := Some request; ctx_top_level := None |}.
End RequestRun.

Module StrictRun.
(** [exclude_fields=['slug']]: the serializer is left with [id] (read-only)
    and [name]. *)
Definition kwargs : Kwargs :=
  {| kw_fields := None; kw_exclude_fields := Some (ArgList ["slug"]);
     kw_extra_fields := None; kw_context := None |}.
Definition self : Serializer :=
  {| fields := {[ "id" := Examples.ro; "name" := Examples.rw ]};
     _extra_fields := ∅; context := None |}.
Definition unknown_payload : list (string * pyobj) :=
  [("name", PyStr "n"); ("slug", PyStr "s")].
Definition read_only_payload : list (string * pyobj) :=
  [("name", PyStr "n"); ("id", PyInt 1)].
Definition mixed_payload : list (string * pyobj) :=
  [("id", PyInt 1); ("colour", PyNone)].
End StrictRun.

Module ExtraReadOnlyRun.
(** The read-only [id] is excluded and named as an extra field. *)
Definition kwargs : Kwargs :=
  {| kw_fields := None; kw_exclude_fields := Some (ArgList ["id"]);
     kw_extra_fields := Some (ArgList ["id"]); kw_context := None |}.
Definition self : Serializer :=
  {| fields := {[ "name" := Examples.rw; "slug" := Examples.rw ]};
     _extra_fields := {[ "id" ]}; context := None |}.
End ExtraReadOnlyRun.

(** Membership facts about concrete lists and sets of names, by evaluation. *)
Ltac names_declared :=
  let n := fresh "n" in
  let H := fresh "H" in
  intros n H;
  repeat (apply elem_of_cons in H as [->|H]; [compute_done |]);
  by apply elem_of_nil in H.

(** * Properties *)

(** ** Messages *)

Lemma append_empty_r (s : string) : s +:+ "" = s.
Proof.
  induction s as [|c s IH]; [done |].
  change (String c (s +:+ "") = String c s). by rewrite IH.
Qed.

Lemma format_unknown_filter (filter_name joined : string) :
  PyStr.format unknown_filter_format [filter_name; joined]
  = Some ("Unknown fields in " +:+ PyStr.dquote +:+ filter_name +:+ PyStr.dquote
            +:+ " filter: " +:+ joined).
Proof.
  transitivity (Some ("Unknown fields in " +:+ PyStr.dquote +:+ filter_name
                        +:+ PyStr.dquote +:+ " filter: " +:+ joined +:+ "")).
  - reflexivity.
  - by rewrite append_empty_r.
Qed.

Lemma error_with_unknown_fields (names : list string) :
  _error_with_fields "Unknown fields: %s." names = Return (unknown_fields_message names).
Proof. reflexivity. Qed.

Lemma error_with_read_only (names : list string) :
  _error_with_fields "Can not update read only fields: %s." names
  = Return (read_only_message names).
Proof. reflexivity. Qed.

(** ** Verification of names *)

Lemma elem_of_unknown_names (names : list string) (valid_fields : gset string) (n : string) :
  n ∈ elements (unknown_names names valid_fields) ↔ n ∈ names ∧ n ∉ valid_fields.
Proof. unfold unknown_names. rewrite elem_of_elements. set_solver. Qed.

Lemma verify_declared (names : list string) (valid_fields : gset string) (filter_name : string) :
  unknown_names names valid_fields = ∅ →
  _verify_field_names names valid_fields filter_name = Return ().
Proof.
  unfold unknown_names, _verify_field_names. intros Hnone.
  destruct names as [|n names]; [done |]. by rewrite decide_True.
Qed.

Lemma verify_unknown (names : list string) (valid_fields : gset string) (filter_name : string) :
  unknown_names names valid_fields ≠ ∅ →
  _verify_field_names names valid_fields filter_name
  = Raise (FieldError (unknown_filter_message filter_name
                         (elements (unknown_names names valid_fields)))).
Proof.
  unfold unknown_names, _verify_field_names. intros Hsome.
  destruct names as [|n names].
  - exfalso. apply Hsome. set_solver.
  - rewrite decide_False by done. by rewrite format_unknown_filter.
Qed.

(** ** Removing fields *)

Lemma pop_each_default_lookup (names : list string) (d : gmap string Field) (k : string) :
  pop_each_default names d !! k = if decide (k ∈ names) then None else d !! k.
Proof.
  revert d. induction names as [|n names IH]; intros d.
  - case_decide; [set_solver | done].
  - change (pop_each_default names (delete n d) !! k
            = if decide (k ∈ n :: names) then None else d !! k).
    rewrite IH. destruct (decide (k = n)) as [->|Hne].
    + rewrite lookup_delete_eq. repeat case_decide; try done; set_solver.
    + rewrite lookup_delete_ne by done. repeat case_decide; try done; set_solver.
Qed.

Lemma pop_each_present (names : list string) (d : gmap string Field) :
  NoDup names → (∀ k, k ∈ names → k ∈ dom d) →
  pop_each names d = Return (pop_each_default names d).
Proof.
  revert d. induction names as [|n names IH]; intros d Hnd Hin; simpl; [done |].
  apply NoDup_cons in Hnd as [Hfresh Hnd].
  assert (n ∈ dom d) as [f Hf]%elem_of_dom by (apply Hin; set_solver).
  unfold pop. rewrite Hf. simpl. apply IH; [done |].
  intros k Hk. unfold pop_default. rewrite dom_delete_L.
  assert (k ≠ n) by congruence.
  assert (k ∈ dom d) by (apply Hin; set_solver).
  set_solver.
Qed.

(** ** The constructor on declared names *)

Lemma Dynamic_init_declared (cls : SerializerClass) (kwargs : Kwargs) (I E : list string) :
  selection_lists kwargs (kw_context kwargs) = (I, E) →
  unknown_names I (dom (cls_fields cls)) = ∅ →
  unknown_names E (dom (cls_fields cls)) = ∅ →
  ∃ s, Dynamic_init cls kwargs = Return s
       ∧ _extra_fields s = _extra_fields (Introspectable_init cls kwargs)
       ∧ context s = kw_context kwargs
       ∧ ∀ k, fields s !! k
              = if decide (k ∈ spec_selected (dom (cls_fields cls)) I E)
                then cls_fields cls !! k else None.
Proof.
  intros Hsel HI HE. unfold Dynamic_init. simpl. rewrite Hsel.
  rewrite (verify_declared _ _ _ HI), (verify_declared _ _ _ HE). simpl.
  unfold unknown_names in HI, HE.
  assert (∀ s : Serializer,
            (∀ k, k ∈ dom (cls_fields cls) →
                  fields s !! k
                  = if decide (k ∈ spec_selected (dom (cls_fields cls)) I E)
                    then cls_fields cls !! k else None) →
            (∀ k, k ∉ dom (cls_fields cls) → fields s !! k = None) →
            ∀ k, fields s !! k
                 = if decide (k ∈ spec_selected (dom (cls_fields cls)) I E)
                   then cls_fields cls !! k else None) as Hcases.
  { intros s Hin Hout k. destruct (decide (k ∈ dom (cls_fields cls))) as [Hd|Hd].
    - by apply Hin.
    - rewrite (Hout k Hd). apply not_elem_of_dom in Hd. rewrite Hd. by case_decide. }
  destruct I as [|i I].
  - destruct E as [|e E].
    + eexists; split; [done |]. repeat split. apply Hcases; simpl.
      * intros k Hd. unfold spec_selected. rewrite decide_True; [done | set_solver].
      * intros k Hd. by apply not_elem_of_dom.
    + eexists; split; [done |]. repeat split. apply Hcases; simpl.
      * intros k Hd. rewrite pop_each_default_lookup. unfold spec_selected.
        destruct (decide (k ∈ (list_to_set (e :: E) : gset string))).
        -- rewrite decide_True by (by apply elem_of_elements).
           rewrite decide_False; [done | set_solver].
        -- rewrite decide_False by (by rewrite elem_of_elements).
           rewrite decide_True; [done | set_solver].
      * intros k Hd. rewrite pop_each_default_lookup.
        case_decide; [done | by apply not_elem_of_dom].
  - rewrite pop_each_present.
    + eexists; split; [done |]. repeat split. apply Hcases; simpl.
      * intros k Hd. rewrite pop_each_default_lookup. unfold spec_selected.
        destruct (decide (k ∈ (list_to_set (i :: I) : gset string))) as [HkI|HkI];
          destruct (decide (k ∈ (list_to_set E : gset string))) as [HkE|HkE].
        -- rewrite decide_True by (apply elem_of_elements; destruct E; set_solver).
           rewrite decide_False; [done | set_solver].
        -- rewrite decide_False by (rewrite elem_of_elements; destruct E; set_solver).
           rewrite decide_True; [done | set_solver].
        -- rewrite decide_True by (apply elem_of_elements; destruct E; set_solver).
           rewrite decide_False; [done | set_solver].
        -- rewrite decide_True by (apply elem_of_elements; destruct E; set_solver).
           rewrite decide_False; [done | set_solver].
      * intros k Hd. rewrite pop_each_default_lookup.
        case_decide; [done | by apply not_elem_of_dom].
    + apply NoDup_elements.
    + intros k Hk%elem_of_elements. simpl. set_solver.
Qed.

(** ** Dynamic field selection *)

(** C1. When every name of the include list [I] and of the exclude list [E]
    (the lists after the request's parameters were appended) is declared,
    construction succeeds and the field collection holds exactly the names
    [(I if I is non-empty, else F) − E], each with its declared field; a name
    listed in both [I] and [E] is absent. *)
Theorem C1_selection_is_include_minus_exclude
    (cls : SerializerClass) (kwargs : Kwargs) (I E : list string) :
  selection_lists kwargs (kw_context kwargs) = (I, E) →
  (∀ n, n ∈ I → n ∈ dom (cls_fields cls)) →
  (∀ n, n ∈ E → n ∈ dom (cls_fields cls)) →
  ∃ s, Dynamic_init cls kwargs = Return s
       ∧ dom (fields s) = spec_selected (dom (cls_fields cls)) I E
       ∧ fields s ⊆ cls_fields cls
       ∧ ∀ n, n ∈ I → n ∈ E → n ∉ dom (fields s).
Proof.
  intros Hsel HI HE.
  destruct (Dynamic_init_declared cls kwargs I E Hsel) as (s & Hs & _ & _ & Hlook).
  { unfold unknown_names. set_solver. }
  { unfold unknown_names. set_solver. }
  assert (dom (fields s) = spec_selected (dom (cls_fields cls)) I E) as Hdom.
  { apply set_eq. intros k. rewrite elem_of_dom, Hlook.
    case_decide as Hk.
    - rewrite <- elem_of_dom. split; [done | intros _].
      unfold spec_selected in Hk. destruct I; set_solver.
    - split; [by intros [? ?] | done]. }
  exists s. repeat split; [done | done | |].
  - apply map_subseteq_spec. intros k f. rewrite Hlook. by case_decide.
  - intros n _ HnE. rewrite Hdom. unfold spec_selected. set_solver.
Qed.

(** C2, as amended. With [fields=I], no exclude list and no context, and
    every name of [I] declared: a non-empty [I] leaves exactly the names of
    [I]; the empty list selects nothing and leaves every declared field. *)
Theorem C2_include_only (cls : SerializerClass) (kwargs : Kwargs) (I : list string) :
  kw_fields kwargs = Some (ArgList I) →
  kw_exclude_fields kwargs = None →
  kw_context kwargs = None →
  (∀ n, n ∈ I → n ∈ dom (cls_fields cls)) →
  ∃ s, Dynamic_init cls kwargs = Return s
       ∧ (I ≠ [] → dom (fields s) = list_to_set I)
       ∧ (I = [] → fields s = cls_fields cls).
Proof.
  intros Hf He Hc HI.
  assert (selection_lists kwargs (kw_context kwargs) = (I, [])) as Hsel.
  { unfold selection_lists. by rewrite Hf, He, Hc. }
  destruct (Dynamic_init_declared cls kwargs I [] Hsel) as (s & Hs & _ & _ & Hlook).
  { unfold unknown_names. set_solver. }
  { unfold unknown_names. set_solver. }
  exists s. split; [done |]. split.
  - intros Hne. apply set_eq. intros k. rewrite elem_of_dom, Hlook.
    unfold spec_selected. destruct I as [|i I]; [done |].
    case_decide as Hk.
    + rewrite <- elem_of_dom. set_solver.
    + split; [by intros [? ?] | set_solver].
  - intros ->. apply map_eq. intros k. rewrite Hlook. unfold spec_selected.
    case_decide as Hk; [done |]. symmetry. apply not_elem_of_dom. set_solver.
Qed.

Lemma C1_witness :
  ∃ s, Dynamic_init Examples.cls IncludeExcludeRun.kwargs = Return s
       ∧ dom (fields s) = spec_selected (dom (cls_fields Examples.cls)) ["id"; "name"] ["id"]
       ∧ fields s ⊆ cls_fields Examples.cls
       ∧ ∀ n, n ∈ ["id"; "name"] → n ∈ ["id"] → n ∉ dom (fields s).
Proof.
  apply (C1_selection_is_include_minus_exclude Examples.cls IncludeExcludeRun.kwargs).
  - vm_compute. reflexivity.
  - names_declared.
  - names_declared.
Defined.

(** C2 as stated fails on the empty include list: [fields=[]] is a subset of
    the declared names, yet the three declared fields all stay, so the
    field collection is not the (empty) set of names of [I]. *)
Lemma C2_counterexample :
  (∀ n, n ∈ ([] : list string) → n ∈ dom (cls_fields Examples.cls))
  ∧ ∃ s, Dynamic_init Examples.cls IncludeRun.empty_include = Return s
         ∧ "name" ∈ dom (fields s)
         ∧ dom (fields s) ≠ list_to_set [].
Proof.
  split; [names_declared |].
  eexists. split; [reflexivity |]. split.
  - compute_done.
  - intros Heq. assert ("name" ∈ (list_to_set [] : gset string)) as Hin.
    { rewrite <- Heq. compute_done. }
    set_solver.
Qed.

Lemma C2_witness :
  ∃ s, Dynamic_init Examples.cls IncludeRun.include_name = Return s
       ∧ dom (fields s) = list_to_set ["name"].
Proof.
  destruct (C2_include_only Examples.cls IncludeRun.include_name ["name"])
    as (s & Hs & Hnonempty & _).
  - reflexivity.
  - reflexivity.
  - reflexivity.
  - names_declared.
  - exists s. split; [exact Hs | by apply Hnonempty].
Defined.

(** ** Unknown names in a selection list *)

(** C4 as stated fails for an [exclude_fields] list when [fields] has an
    unknown name too: with [fields=['x']] and [exclude_fields=['y']] the
    unknown name of the exclude list is [y], but the error raised is the one
    of the [fields] filter and lists [x] only. *)
Lemma C4_counterexample :
  elements (unknown_names ["y"] (dom (cls_fields Examples.cls))) = ["y"]
  ∧ selection_lists UnknownRun.both_unknown (kw_context UnknownRun.both_unknown) = (["x"], ["y"])
  ∧ Dynamic_init Examples.cls UnknownRun.both_unknown
    = Raise (FieldError (unknown_filter_message "fields" ["x"]))
  ∧ Dynamic_init Examples.cls UnknownRun.both_unknown
    ≠ Raise (FieldError (unknown_filter_message "exclude_fields" ["y"])).
Proof.
  split; [by vm_compute |]. split; [done |].
  assert (Dynamic_init Examples.cls UnknownRun.both_unknown
          = Raise (FieldError (unknown_filter_message "fields" ["x"]))) as Hrun
    by (by vm_compute).
  split; [done |]. rewrite Hrun. vm_compute. discriminate.
Qed.

(** C4, as amended. [fields] is verified before [exclude_fields]: if the
    include list [I] has an unknown name, construction raises the
    [FieldError] of the [fields] filter, listing exactly the unknown names of
    [I]; if [I] has none and the exclude list [E] has one, it raises the
    [FieldError] of the [exclude_fields] filter, listing exactly the unknown
    names of [E]; if neither has one, construction raises nothing. *)
Theorem C4_unknown_names_raise
    (cls : SerializerClass) (kwargs : Kwargs) (I E : list string) :
  selection_lists kwargs (kw_context kwargs) = (I, E) →
  let F := dom (cls_fields cls) in
  (unknown_names I F ≠ ∅ →
     Dynamic_init cls kwargs
     = Raise (FieldError (unknown_filter_message "fields" (elements (unknown_names I F)))))
  ∧ (unknown_names I F = ∅ → unknown_names E F ≠ ∅ →
     Dynamic_init cls kwargs
     = Raise (FieldError (unknown_filter_message "exclude_fields"
                            (elements (unknown_names E F)))))
  ∧ (unknown_names I F = ∅ → unknown_names E F = ∅ →
     ∃ s, Dynamic_init cls kwargs = Return s)
  ∧ (∀ L n, n ∈ elements (unknown_names L F) ↔ n ∈ L ∧ n ∉ F)
  ∧ (∀ L, NoDup (elements (unknown_names L F))).
Proof.
  intros Hsel F. split; [| split; [| split; [| split]]].
  - intros HI. unfold Dynamic_init. simpl. rewrite Hsel.
    by rewrite (verify_unknown _ _ _ HI).
  - intros HI HE. unfold Dynamic_init. simpl. rewrite Hsel.
    by rewrite (verify_declared _ _ _ HI), (verify_unknown _ _ _ HE).
  - intros HI HE.
    destruct (Dynamic_init_declared cls kwargs I E Hsel HI HE) as (s & Hs & _).
    by exists s.
  - intros L n. apply elem_of_unknown_names.
  - intros L. apply NoDup_elements.
Qed.

Lemma C4_witness :
  selection_lists UnknownRun.exclude_unknown (kw_context UnknownRun.exclude_unknown)
  = (["name"], ["y"; "id"])
  ∧ Dynamic_init Examples.cls UnknownRun.exclude_unknown
    = Raise (FieldError (unknown_filter_message "exclude_fields"
               (elements (unknown_names ["y"; "id"] (dom (cls_fields Examples.cls)))))).
Proof.
  split; [reflexivity |].
  apply (C4_unknown_names_raise Examples.cls UnknownRun.exclude_unknown ["name"] ["y"; "id"]).
  - reflexivity.
  - vm_compute. reflexivity.
  - compute_done.
Defined.

Example C4_exclude_run :
  Dynamic_init Examples.cls UnknownRun.exclude_unknown
  = Raise (FieldError (unknown_filter_message "exclude_fields" ["y"])).
Proof. by vm_compute. Qed.

(** ** Extra fields *)

(** Construction only replaces the field collection. *)
Lemma Dynamic_init_extra_fields (cls : SerializerClass) (kwargs : Kwargs) (s : Serializer) :
  Dynamic_init cls kwargs = Return s →
  _extra_fields s = _extra_fields (Introspectable_init cls kwargs)
  ∧ context s = kw_context kwargs.
Proof.
  unfold Dynamic_init. simpl.
  destruct (selection_lists kwargs (kw_context kwargs)) as [I E].
  destruct (_verify_field_names I _ _); simpl; [| done].
  destruct (_verify_field_names E _ _); simpl; [| done].
  destruct I as [|i I].
  - destruct E as [|e E]; by intros [= <-].
  - destruct (pop_each _ _); simpl; [| done]. by intros [= <-].
Qed.

(** A construction that succeeded had only declared names to select from,
    and kept exactly the selected ones. *)
Lemma Dynamic_init_Return_inv
    (cls : SerializerClass) (kwargs : Kwargs) (s : Serializer) (I E : list string) :
  Dynamic_init cls kwargs = Return s →
  selection_lists kwargs (kw_context kwargs) = (I, E) →
  unknown_names I (dom (cls_fields cls)) = ∅
  ∧ unknown_names E (dom (cls_fields cls)) = ∅
  ∧ ∀ k, fields s !! k
         = if decide (k ∈ spec_selected (dom (cls_fields cls)) I E)
           then cls_fields cls !! k else None.
Proof.
  intros Hs Hsel.
  destruct (decide (unknown_names I (dom (cls_fields cls)) = ∅)) as [HI|HI].
  - destruct (decide (unknown_names E (dom (cls_fields cls)) = ∅)) as [HE|HE].
    + destruct (Dynamic_init_declared cls kwargs I E Hsel HI HE) as (s' & Hs' & _ & _ & Hlook).
      assert (s' = s) as -> by congruence. done.
    + exfalso. revert Hs. unfold Dynamic_init. simpl. rewrite Hsel.
      by rewrite (verify_declared _ _ _ HI), (verify_unknown _ _ _ HE).
  - exfalso. revert Hs. unfold Dynamic_init. simpl. rewrite Hsel.
    by rewrite (verify_unknown _ _ _ HI).
Qed.

(** C3 as stated fails for a comma-separated string: [extra_fields='ab,cd']
    names the fields [ab] and [cd], but the constructor hands the string to
    [set.update], which adds its characters; neither [ab] nor [cd] is an
    allowed key afterwards. *)
Lemma C3_counterexample :
  PyStr.split_comma "ab,cd" = ["ab"; "cd"]
  ∧ ∃ s, Strict_init Examples.cls ExtraRun.as_string = Return s
         ∧ s = Introspectable_init Examples.cls ExtraRun.as_string
         ∧ _extra_fields s = list_to_set ["a"; "b"; ","; "c"; "d"]
         ∧ ("ab" ∉ get_allowed_keys s)
         ∧ ("cd" ∉ get_allowed_keys s).
Proof.
  split; [reflexivity |].
  eexists. split; [reflexivity |]. split; [reflexivity |].
  split; [by vm_compute |]. split; compute_done.
Qed.

(** C3, as amended. [extra_fields] given as a list of field names makes each
    named field a member of [get_allowed_keys], for the bare
    [IntrospectableSerializerMixin] and for a serializer whose construction
    with field selection succeeded alike. A string is not split at commas:
    each of its characters becomes a member. *)
Theorem C3_extra_fields_allowed (cls : SerializerClass) (kwargs : Kwargs) (s : Serializer) :
  s = Introspectable_init cls kwargs ∨ Strict_init cls kwargs = Return s →
  (∀ l, kw_extra_fields kwargs = Some (ArgList l) →
        ∀ n, n ∈ l → n ∈ get_allowed_keys s)
  ∧ (∀ str, kw_extra_fields kwargs = Some (ArgStr str) →
            ∀ c, c ∈ PyStr.chars str → c ∈ get_allowed_keys s).
Proof.
  intros Hs.
  assert (_extra_fields s = _extra_fields (Introspectable_init cls kwargs)) as Hextra.
  { destruct Hs as [->|Hs]; [done |]. by apply Dynamic_init_extra_fields in Hs as [? _]. }
  unfold get_allowed_keys. rewrite Hextra. simpl.
  split; intros x -> n Hn; simpl; set_solver.
Qed.

Lemma C3_witness :
  "cd" ∈ get_allowed_keys (Introspectable_init Examples.cls ExtraRun.as_list)
  ∧ "," ∈ get_allowed_keys (Introspectable_init Examples.cls ExtraRun.as_string).
Proof.
  split.
  - apply (proj1 (C3_extra_fields_allowed Examples.cls ExtraRun.as_list
                    (Introspectable_init Examples.cls ExtraRun.as_list) (or_introl eq_refl))
             ["ab"; "cd"] eq_refl).
    set_solver.
  - apply (proj2 (C3_extra_fields_allowed Examples.cls ExtraRun.as_string
                    (Introspectable_init Examples.cls ExtraRun.as_string) (or_introl eq_refl))
             "ab,cd" eq_refl).
    simpl. set_solver.
Defined.

(** ** Query parameters of the request *)

(** The outcome of construction depends on the keyword arguments and the
    context only through the selection lists. *)
Lemma field_collection_selection (cls : SerializerClass) (kwargs1 kwargs2 : Kwargs) :
  selection_lists kwargs1 (kw_context kwargs1) = selection_lists kwargs2 (kw_context kwargs2) →
  field_collection (Dynamic_init cls kwargs1) = field_collection (Dynamic_init cls kwargs2).
Proof.
  intros Hsel. unfold Dynamic_init. simpl. rewrite Hsel.
  destruct (selection_lists kwargs2 (kw_context kwargs2)) as [I E].
  destruct (_verify_field_names I _ _); simpl; [| done].
  destruct (_verify_field_names E _ _); simpl; [| done].
  destruct I as [|i I].
  - by destruct E.
  - by destruct (pop_each _ _).
Qed.

Lemma selection_lists_not_top_level (kwargs : Kwargs) (ctx : Context) :
  top_level ctx = false →
  selection_lists kwargs (Some ctx)
  = (_pop_field_list (kw_fields kwargs), _pop_field_list (kw_exclude_fields kwargs)).
Proof.
  intros Hnot. unfold selection_lists. rewrite Hnot. by destruct (ctx_request ctx).
Qed.

(** C8. The request's [fields] and [exclude_fields] parameters are appended
    to the selection lists only when the context holds a request and the
    instance is top-level, where top-level is the truth value of
    [context.get('top_level', True)]; for an instance that is not top-level,
    the selection lists are those of the keyword arguments and the
    resulting field collection (or error) is the same for every request. *)
Theorem C8_request_only_top_level (cls : SerializerClass) (kwargs : Kwargs) (ctx : Context) :
  (selection_lists kwargs (Some ctx) ≠ selection_lists kwargs None →
     top_level ctx = true ∧ is_Some (ctx_request ctx))
  ∧ (top_level ctx = false →
     selection_lists kwargs (Some ctx)
     = (_pop_field_list (kw_fields kwargs), _pop_field_list (kw_exclude_fields kwargs))
     ∧ ∀ request request' : option Request,
         field_collection (Dynamic_init cls (with_context kwargs (Some (with_request ctx request))))
         = field_collection (Dynamic_init cls (with_context kwargs (Some (with_request ctx request'))))).
Proof.
  split.
  - unfold selection_lists, top_level.
    destruct (ctx_request ctx) as [req|]; [| done].
    destruct (default true (ctx_top_level ctx)); [| done].
    intros _. by split.
  - intros Hnot. split.
    + by apply selection_lists_not_top_level.
    + intros request request'. apply field_collection_selection.
      change (selection_lists kwargs (Some (with_request ctx request))
              = selection_lists kwargs (Some (with_request ctx request'))).
      by rewrite !selection_lists_not_top_level.
Qed.

Lemma C8_witness :
  field_collection (Dynamic_init Examples.cls
      (with_context Examples.no_kwargs (Some (with_request RequestRun.nested (Some RequestRun.request)))))
  = field_collection (Dynamic_init Examples.cls
      (with_context Examples.no_kwargs (Some (with_request RequestRun.nested None)))).
Proof.
  apply (C8_request_only_top_level Examples.cls Examples.no_kwargs RequestRun.nested).
  reflexivity.
Defined.

(** With no ['top_level'] entry in the context the instance is top-level,
    and the request's [fields=name] leaves only [name]. *)
Example C8_default_is_top_level :
  top_level RequestRun.unmarked = true
  ∧ selection_lists Examples.no_kwargs (Some RequestRun.unmarked) = (["name"], [])
  ∧ field_collection (Dynamic_init Examples.cls
        (with_context Examples.no_kwargs (Some RequestRun.unmarked)))
    = Return {[ "name" := Examples.rw ]}.
Proof. split; [done |]. split; by vm_compute. Qed.

(** ** Strict input validation *)

Lemma elem_of_unknown_keys (self : Serializer) (items : list (string * pyobj)) (k : string) :
  k ∈ elements (unknown_keys self items) ↔ k ∈ dict_keys items ∧ k ∉ get_allowed_keys self.
Proof. unfold unknown_keys. rewrite elem_of_elements. set_solver. Qed.

Lemma unknown_keys_empty (self : Serializer) (items : list (string * pyobj)) :
  unknown_keys self items = ∅ ↔ ∀ k, k ∈ dict_keys items → k ∈ get_allowed_keys self.
Proof.
  unfold unknown_keys. split.
  - intros Hempty k Hk. destruct (decide (k ∈ get_allowed_keys self)); [done |].
    exfalso. assert (k ∈ (∅ : gset string)); [| set_solver].
    rewrite <- Hempty. set_solver.
  - intros Hall. set_solver.
Qed.

Lemma _is_read_only_true (self : Serializer) (k : string) :
  _is_read_only self k = true ↔ ∃ f, fields self !! k = Some f ∧ read_only f = Some true.
Proof.
  unfold _is_read_only. destruct (fields self !! k) as [f|].
  - destruct f as [[[|]|]]; simpl; split; try done.
    + intros _. by eexists.
    + by intros (f & [= <-] & [=]).
    + by intros (f & [= <-] & [=]).
  - split; [done | by intros (f & [=] & _)].
Qed.

Lemma elem_of_read_only_keys (self : Serializer) (items : list (string * pyobj)) (k : string) :
  k ∈ read_only_keys self items ↔ k ∈ dict_keys items ∧ _is_read_only self k = true.
Proof. unfold read_only_keys. rewrite list_elem_of_filter. tauto. Qed.

Lemma maybe_raise_error_spec (extra_fields : gset string) :
  maybe_raise_error extra_fields
  = if decide (extra_fields = ∅) then Return ()
    else Raise (FieldError (unknown_fields_message (elements extra_fields))).
Proof. unfold maybe_raise_error. by case_decide. Qed.

Lemma check_read_only_fields_spec (self : Serializer) (keys : list string) :
  check_read_only_fields self keys
  = match filter (λ key, _is_read_only self key = true) keys with
    | [] => Return ()
    | k :: ks => Raise (FieldError (read_only_message (k :: ks)))
    end.
Proof. unfold check_read_only_fields. by destruct (filter _ _). Qed.

Section StrictProperties.

Variable super_to_internal_value : Serializer → pyobj → result pyobj.
Local Abbreviation run := (to_internal_value super_to_internal_value).

(** The three ways a run on a dictionary ends. *)
Lemma to_internal_value_unknown (self : Serializer) (items : list (string * pyobj)) :
  unknown_keys self items ≠ ∅ →
  run self (PyDict items)
  = ([CallGetAllowedKeys; CallMaybeRaiseError],
     Raise (FieldError (unknown_fields_message (elements (unknown_keys self items))))).
Proof.
  intros Hsome. unfold to_internal_value, enter. simpl.
  fold (unknown_keys self items). rewrite maybe_raise_error_spec.
  by rewrite decide_False.
Qed.

Lemma to_internal_value_read_only (self : Serializer) (items : list (string * pyobj)) :
  unknown_keys self items = ∅ → read_only_keys self items ≠ [] →
  run self (PyDict items)
  = ([CallGetAllowedKeys; CallMaybeRaiseError; CallCheckReadOnlyFields],
     Raise (FieldError (read_only_message (read_only_keys self items)))).
Proof.
  intros Hnone Hro. unfold to_internal_value, enter. simpl.
  fold (unknown_keys self items). rewrite maybe_raise_error_spec.
  rewrite decide_True by done. simpl. rewrite check_read_only_fields_spec.
  fold (read_only_keys self items). by destruct (read_only_keys self items).
Qed.

Lemma to_internal_value_delegates (self : Serializer) (items : list (string * pyobj)) :
  unknown_keys self items = ∅ → read_only_keys self items = [] →
  run self (PyDict items)
  = ([CallGetAllowedKeys; CallMaybeRaiseError; CallCheckReadOnlyFields;
      CallSuperToInternalValue],
     super_to_internal_value self (PyDict items)).
Proof.
  intros Hnone Hro. unfold to_internal_value, enter. simpl.
  fold (unknown_keys self items). rewrite maybe_raise_error_spec.
  rewrite decide_True by done. simpl. rewrite check_read_only_fields_spec.
  fold (read_only_keys self items). rewrite Hro. simpl.
  by destruct (super_to_internal_value self (PyDict items)).
Qed.

End StrictProperties.

(** C5. On a dictionary with at least one key outside the allowed set
    (fields of the serializer together with the extra fields),
    [to_internal_value] raises the [FieldError] whose message lists, each
    once, exactly the keys that are not allowed; when every key is allowed
    the unknown-fields check raises nothing and the outcome is that of the
    read-only check followed by the framework's own conversion. *)
Theorem C5_unknown_keys_listed
    (super_to_internal_value : Serializer → pyobj → result pyobj)
    (self : Serializer) (items : list (string * pyobj)) :
  ((∃ k, k ∈ dict_keys items ∧ k ∉ get_allowed_keys self) →
     outcome (to_internal_value super_to_internal_value self (PyDict items))
     = Raise (FieldError (unknown_fields_message (elements (unknown_keys self items)))))
  ∧ (∀ k, k ∈ elements (unknown_keys self items)
          ↔ k ∈ dict_keys items ∧ k ∉ get_allowed_keys self)
  ∧ NoDup (elements (unknown_keys self items))
  ∧ ((∀ k, k ∈ dict_keys items → k ∈ get_allowed_keys self) →
     maybe_raise_error (unknown_keys self items) = Return ()
     ∧ outcome (to_internal_value super_to_internal_value self (PyDict items))
       = (check_read_only_fields self (dict_keys items);;
          super_to_internal_value self (PyDict items))).
Proof.
  split; [| split; [| split]].
  - intros (k & Hk & Hnot). rewrite to_internal_value_unknown; [done |].
    intros Hempty. rewrite unknown_keys_empty in Hempty. by apply Hnot, Hempty.
  - intros k. apply elem_of_unknown_keys.
  - apply NoDup_elements.
  - intros Hall%unknown_keys_empty. rewrite maybe_raise_error_spec.
    rewrite decide_True by done. split; [done |].
    rewrite check_read_only_fields_spec. fold (read_only_keys self items).
    destruct (read_only_keys self items) as [|k ks] eqn:Hro.
    + by rewrite to_internal_value_delegates.
    + rewrite to_internal_value_read_only; [by rewrite Hro | done | by rewrite Hro].
Qed.

Lemma C5_witness :
  outcome (to_internal_value Examples.accept_all StrictRun.self
             (PyDict StrictRun.unknown_payload))
  = Raise (FieldError (unknown_fields_message ["slug"])).
Proof.
  assert (elements (unknown_keys StrictRun.self StrictRun.unknown_payload) = ["slug"]) as <-
    by (by vm_compute).
  apply (C5_unknown_keys_listed Examples.accept_all StrictRun.self StrictRun.unknown_payload).
  exists "slug". split; [set_solver | compute_done].
Defined.

(** C6. On a dictionary whose keys are all allowed: if at least one key
    names a read-only field, [to_internal_value] raises the [FieldError]
    whose message lists exactly the keys naming a read-only field, in
    payload order; if none does, the read-only check raises nothing and the
    outcome is that of the framework's own conversion. *)
Theorem C6_read_only_keys_listed
    (super_to_internal_value : Serializer → pyobj → result pyobj)
    (self : Serializer) (items : list (string * pyobj)) :
  (∀ k, k ∈ dict_keys items → k ∈ get_allowed_keys self) →
  ((∃ k f, k ∈ dict_keys items ∧ fields self !! k = Some f ∧ read_only f = Some true) →
     outcome (to_internal_value super_to_internal_value self (PyDict items))
     = Raise (FieldError (read_only_message (read_only_keys self items))))
  ∧ (∀ k, k ∈ read_only_keys self items
          ↔ k ∈ dict_keys items
            ∧ ∃ f, fields self !! k = Some f ∧ read_only f = Some true)
  ∧ ((∀ k f, k ∈ dict_keys items → fields self !! k = Some f → read_only f ≠ Some true) →
     check_read_only_fields self (dict_keys items) = Return ()
     ∧ outcome (to_internal_value super_to_internal_value self (PyDict items))
       = super_to_internal_value self (PyDict items)).
Proof.
  intros Hall%unknown_keys_empty.
  assert (∀ k, k ∈ read_only_keys self items
               ↔ k ∈ dict_keys items
                 ∧ ∃ f, fields self !! k = Some f ∧ read_only f = Some true) as Hmem.
  { intros k. rewrite elem_of_read_only_keys. by rewrite _is_read_only_true. }
  split; [| split; [done |]].
  - intros (k & f & Hk & Hf & Hro).
    rewrite to_internal_value_read_only; [done | done |].
    intros Hnil. assert (k ∈ read_only_keys self items) as Hin by (apply Hmem; eauto).
    rewrite Hnil in Hin. by apply elem_of_nil in Hin.
  - intros Hnone.
    assert (read_only_keys self items = []) as Hnil.
    { destruct (read_only_keys self items) as [|k ks] eqn:Hro; [done |].
      assert (k ∈ k :: ks) as Hin by set_solver.
      apply Hmem in Hin as (Hk & f & Hf & Htrue). by destruct (Hnone k f Hk Hf). }
    rewrite check_read_only_fields_spec. fold (read_only_keys self items).
    rewrite Hnil. split; [done |]. by rewrite to_internal_value_delegates.
Qed.

Lemma C6_witness :
  outcome (to_internal_value Examples.accept_all StrictRun.self
             (PyDict StrictRun.read_only_payload))
  = Raise (FieldError (read_only_message ["id"])).
Proof.
  change ["id"] with (read_only_keys StrictRun.self StrictRun.read_only_payload).
  apply (C6_read_only_keys_listed Examples.accept_all StrictRun.self
           StrictRun.read_only_payload).
  - names_declared.
  - exists "id", Examples.ro. split; [set_solver |]. split; [by vm_compute | done].
Defined.

Lemma to_internal_value_dict_calls
    (super_to_internal_value : Serializer → pyobj → result pyobj)
    (self : Serializer) (items : list (string * pyobj)) :
  ∃ rest, calls (to_internal_value super_to_internal_value self (PyDict items))
          = CallGetAllowedKeys :: CallMaybeRaiseError :: rest
          ∧ rest `prefix_of` [CallCheckReadOnlyFields; CallSuperToInternalValue].
Proof.
  destruct (decide (unknown_keys self items = ∅)) as [Hnone|Hsome].
  - destruct (decide (read_only_keys self items = [])) as [Hnil|Hro].
    + rewrite to_internal_value_delegates by done. by eexists.
    + rewrite to_internal_value_read_only by done.
      eexists. split; [done |]. by exists [CallSuperToInternalValue].
  - rewrite to_internal_value_unknown by done.
    eexists. split; [done |]. apply prefix_nil.
Qed.

(** C7. A payload that is not a dictionary (the [isinstance(data, dict)]
    test) makes [to_internal_value] raise the [ValidationError] with no
    method entered: no allowed-keys, unknown-key or read-only check has run.
    A dictionary never gets that error from the test: the run enters the
    unknown-key check, and its outcome is that of the field checks followed
    by the framework's own conversion. *)
Theorem C7_non_dict_rejected_first
    (super_to_internal_value : Serializer → pyobj → result pyobj)
    (self : Serializer) (data : pyobj) :
  (isinstance_dict data = false →
     to_internal_value super_to_internal_value self data = ([], Raise invalid_input))
  ∧ (∀ items, data = PyDict items →
       [CallGetAllowedKeys; CallMaybeRaiseError]
         `prefix_of` calls (to_internal_value super_to_internal_value self data)
       ∧ outcome (to_internal_value super_to_internal_value self data)
         = (maybe_raise_error (unknown_keys self items);;
            check_read_only_fields self (dict_keys items);;
            super_to_internal_value self data)).
Proof.
  split.
  - by destruct data.
  - intros items ->. split.
    + destruct (to_internal_value_dict_calls super_to_internal_value self items)
        as (rest & -> & _).
      by exists rest.
    + rewrite maybe_raise_error_spec, check_read_only_fields_spec.
      fold (read_only_keys self items).
      destruct (decide (unknown_keys self items = ∅)) as [Hnone|Hsome].
      * destruct (read_only_keys self items) as [|k ks] eqn:Hro.
        -- by rewrite to_internal_value_delegates.
        -- rewrite to_internal_value_read_only; [by rewrite Hro | done | by rewrite Hro].
      * by rewrite to_internal_value_unknown.
Qed.

Lemma C7_witness :
  to_internal_value Examples.accept_all StrictRun.self (PyList [PyStr "name"])
  = ([], Raise invalid_input)
  ∧ [CallGetAllowedKeys; CallMaybeRaiseError]
      `prefix_of` calls (to_internal_value Examples.accept_all StrictRun.self
                           (PyDict StrictRun.mixed_payload)).
Proof.
  split.
  - by apply (proj1 (C7_non_dict_rejected_first Examples.accept_all StrictRun.self
                       (PyList [PyStr "name"]))).
  - by apply (proj2 (C7_non_dict_rejected_first Examples.accept_all StrictRun.self
                       (PyDict StrictRun.mixed_payload)) StrictRun.mixed_payload).
Defined.

(** C9. The checks come in the order: dictionary test, unknown keys,
    read-only keys, then the framework's conversion; every run enters the
    methods in that order and stops at the first that raises. So a
    dictionary with a key outside the allowed set and a key naming a
    read-only field gets the unknown-fields [FieldError], and the read-only
    check is not entered. *)
Theorem C9_unknown_before_read_only
    (super_to_internal_value : Serializer → pyobj → result pyobj)
    (self : Serializer) (data : pyobj) :
  calls (to_internal_value super_to_internal_value self data) `prefix_of` full_run
  ∧ (isinstance_dict data = false →
       calls (to_internal_value super_to_internal_value self data) = [])
  ∧ (∀ items unknown_key read_only_key,
       data = PyDict items →
       unknown_key ∈ dict_keys items → unknown_key ∉ get_allowed_keys self →
       read_only_key ∈ dict_keys items → _is_read_only self read_only_key = true →
       to_internal_value super_to_internal_value self data
       = ([CallGetAllowedKeys; CallMaybeRaiseError],
          Raise (FieldError (unknown_fields_message (elements (unknown_keys self items)))))
       ∧ (CallCheckReadOnlyFields
            ∉ calls (to_internal_value super_to_internal_value self data))
       ∧ (read_only_key ∉ elements (unknown_keys self items))).
Proof.
  split; [| split].
  - destruct data as [| | | | |items]; try apply prefix_nil.
    destruct (to_internal_value_dict_calls super_to_internal_value self items)
      as (rest & -> & Hrest).
    unfold full_run. by do 2 apply prefix_cons.
  - by destruct data.
  - intros items k r -> Hk Hunknown Hr Hro.
    assert (unknown_keys self items ≠ ∅) as Hsome.
    { intros Hempty. rewrite unknown_keys_empty in Hempty. by apply Hunknown, Hempty. }
    rewrite to_internal_value_unknown by done. split; [done |]. split.
    + unfold calls. simpl. set_solver.
    + rewrite elem_of_unknown_keys. intros [_ Hnot]. apply Hnot.
      unfold get_allowed_keys. apply elem_of_union_l, elem_of_dom.
      apply _is_read_only_true in Hro as (f & Hf & _). by exists f.
Qed.

Lemma C9_witness :
  to_internal_value Examples.accept_all StrictRun.self (PyDict StrictRun.mixed_payload)
  = ([CallGetAllowedKeys; CallMaybeRaiseError],
     Raise (FieldError (unknown_fields_message ["colour"]))).
Proof.
  assert (elements (unknown_keys StrictRun.self StrictRun.mixed_payload) = ["colour"]) as <-
    by (by vm_compute).
  apply (proj2 (proj2 (C9_unknown_before_read_only Examples.accept_all StrictRun.self
                         (PyDict StrictRun.mixed_payload)))
           StrictRun.mixed_payload "colour" "id").
  - reflexivity.
  - set_solver.
  - compute_done.
  - set_solver.
  - by vm_compute.
Defined.

(** C10. [get_allowed_keys] reads the field collection as construction
    left it: a declared field that the [fields] / [exclude_fields] selection
    did not keep, and that is not an extra field, is gone from the field
    collection and is no allowed key, and a payload that carries it gets the
    unknown-fields [FieldError], whose message lists it. *)
Theorem C10_removed_field_is_unknown
    (super_to_internal_value : Serializer → pyobj → result pyobj)
    (cls : SerializerClass) (kwargs : Kwargs) (s : Serializer) (I E : list string)
    (n : string) (items : list (string * pyobj)) :
  Strict_init cls kwargs = Return s →
  selection_lists kwargs (kw_context kwargs) = (I, E) →
  n ∈ dom (cls_fields cls) →
  n ∉ spec_selected (dom (cls_fields cls)) I E →
  n ∉ _extra_fields s →
  n ∈ dict_keys items →
  (I ≠ [] ∨ E ≠ [])
  ∧ (n ∉ dom (fields s))
  ∧ (n ∉ get_allowed_keys s)
  ∧ n ∈ elements (unknown_keys s items)
  ∧ to_internal_value super_to_internal_value s (PyDict items)
    = ([CallGetAllowedKeys; CallMaybeRaiseError],
       Raise (FieldError (unknown_fields_message (elements (unknown_keys s items))))).
Proof.
  intros Hs Hsel Hdeclared Hremoved Hextra Hn.
  destruct (Dynamic_init_Return_inv cls kwargs s I E Hs Hsel) as (_ & _ & Hlook).
  assert (n ∉ dom (fields s)) as Hgone.
  { rewrite elem_of_dom, Hlook. rewrite decide_False by done. by intros [? ?]. }
  assert (n ∉ get_allowed_keys s) as Hnot by (unfold get_allowed_keys; set_solver).
  assert (n ∈ elements (unknown_keys s items)) as Hin by by apply elem_of_unknown_keys.
  split.
  - destruct I as [|i I]; [| by left]. destruct E as [|e E]; [| by right].
    exfalso. apply Hremoved. unfold spec_selected. set_solver.
  - split; [done |]. split; [done |]. split; [done |].
    apply to_internal_value_unknown. intros Hempty. rewrite Hempty in Hin.
    set_solver.
Qed.

Lemma C10_witness :
  Strict_init Examples.cls StrictRun.kwargs = Return StrictRun.self
  ∧ to_internal_value Examples.accept_all StrictRun.self (PyDict StrictRun.unknown_payload)
    = ([CallGetAllowedKeys; CallMaybeRaiseError],
       Raise (FieldError (unknown_fields_message ["slug"]))).
Proof.
  assert (Strict_init Examples.cls StrictRun.kwargs = Return StrictRun.self) as Hinit
    by (by vm_compute).
  split; [exact Hinit |].
  assert (elements (unknown_keys StrictRun.self StrictRun.unknown_payload) = ["slug"]) as <-
    by (by vm_compute).
  apply (C10_removed_field_is_unknown Examples.accept_all Examples.cls StrictRun.kwargs
           StrictRun.self [] ["slug"] "slug" StrictRun.unknown_payload Hinit).
  - reflexivity.
  - compute_done.
  - compute_done.
  - compute_done.
  - compute_done.
Defined.

(** * Further properties of the helpers and the mixins *)

(** ** Comma-separated selection strings *)

Lemma split_comma_nonempty (s : string) : PyStr.split_comma s ≠ [].
Proof.
  induction s as [|c s IH]; simpl; [done |].
  destruct (Ascii.eqb c PyStr.comma); [done |].
  by destruct (PyStr.split_comma s).
Qed.

Lemma join_cons_char (sep : string) (c : ascii) (w : string) (ws : list string) :
  PyStr.join sep (String c w :: ws) = String c (PyStr.join sep (w :: ws)).
Proof. by destruct ws. Qed.

Lemma join_split_comma (s : string) : PyStr.join "," (PyStr.split_comma s) = s.
Proof.
  induction s as [|c s IH]; [done |].
  change (PyStr.split_comma (String c s))
    with (if Ascii.eqb c PyStr.comma then EmptyString :: PyStr.split_comma s
          else match PyStr.split_comma s with
               | [] => [String c EmptyString]
               | w :: ws => String c w :: ws
               end).
  destruct (Ascii.eqb_spec c PyStr.comma) as [->|Hc].
  - pose proof (split_comma_nonempty s) as Hne.
    destruct (PyStr.split_comma s) as [|w ws]; [done |].
    change (String PyStr.comma (PyStr.join "," (w :: ws)) = String PyStr.comma s).
    by rewrite IH.
  - pose proof (split_comma_nonempty s) as Hne.
    destruct (PyStr.split_comma s) as [|w ws]; [done |].
    rewrite join_cons_char. by rewrite IH.
Qed.

Lemma split_comma_comma_free (s : string) : Forall comma_free (PyStr.split_comma s).
Proof.
  induction s as [|c s IH]; [by repeat constructor |].
  change (PyStr.split_comma (String c s))
    with (if Ascii.eqb c PyStr.comma then EmptyString :: PyStr.split_comma s
          else match PyStr.split_comma s with
               | [] => [String c EmptyString]
               | w :: ws => String c w :: ws
               end).
  destruct (Ascii.eqb c PyStr.comma) eqn:Hc.
  - by constructor.
  - destruct (PyStr.split_comma s) as [|w ws].
    + repeat constructor. unfold comma_free. simpl. by rewrite Hc.
    + apply Forall_cons in IH as [Hw Hws]. constructor; [| done].
      unfold comma_free in *. simpl. by rewrite Hc.
Qed.

Lemma split_comma_free (w : string) : comma_free w → PyStr.split_comma w = [w].
Proof.
  unfold comma_free. induction w as [|c w IH]; [done |]. simpl.
  intros [Hc Hw]%orb_false_elim. rewrite Hc. by rewrite IH.
Qed.

Lemma split_comma_app (w rest : string) :
  comma_free w →
  PyStr.split_comma (w +:+ String PyStr.comma rest) = w :: PyStr.split_comma rest.
Proof.
  unfold comma_free. induction w as [|c w IH]; [done |]. simpl.
  intros [Hc Hw]%orb_false_elim.
  change (String c w +:+ String PyStr.comma rest)
    with (String c (w +:+ String PyStr.comma rest)).
  simpl. rewrite Hc. by rewrite IH.
Qed.

Lemma split_comma_join (names : list string) :
  names ≠ [] → Forall comma_free names →
  PyStr.split_comma (PyStr.join "," names) = names.
Proof.
  induction names as [|w [|w' ws] IH]; [done | |].
  - intros _ [Hw _]%Forall_cons. by apply split_comma_free.
  - intros _ [Hw Hws]%Forall_cons.
    change (PyStr.join "," (w :: w' :: ws))
      with (w +:+ String PyStr.comma (PyStr.join "," (w' :: ws))).
    rewrite split_comma_app by done. by rewrite IH.
Qed.


(** X1. A selection given as a string is cut at every comma: the list of
    names is never empty, no name contains a comma, and joining the names
    with commas gives the string back, so nothing of it is dropped (empty
    pieces between adjacent commas included). *)
Theorem pop_field_list_string_round_trip (s : string) :
  _pop_field_list (Some (ArgStr s)) ≠ []
  ∧ Forall comma_free (_pop_field_list (Some (ArgStr s)))
  ∧ PyStr.join "," (_pop_field_list (Some (ArgStr s))) = s.
Proof.
  split; [apply split_comma_nonempty |].
  split; [apply split_comma_comma_free | apply join_split_comma].
Qed.

(** X2. Passing [fields] and [exclude_fields] as comma-joined strings is
    the same as passing the lists of names, for non-empty lists of names
    that contain no comma: construction ends in the same serializer or the
    same error. *)
Theorem string_selection_same_as_list
    (cls : SerializerClass) (kwargs : Kwargs) (include exclude : list string) :
  include ≠ [] → Forall comma_free include →
  exclude ≠ [] → Forall comma_free exclude →
  Dynamic_init cls (with_selection kwargs (Some (ArgStr (PyStr.join "," include)))
                      (Some (ArgStr (PyStr.join "," exclude))))
  = Dynamic_init cls (with_selection kwargs (Some (ArgList include))
                        (Some (ArgList exclude))).
Proof.
  intros Hi Hfi He Hfe. unfold Dynamic_init, selection_lists, _pop_field_list. simpl.
  by rewrite !split_comma_join.
Qed.

Lemma string_selection_same_as_list_witness :
  Dynamic_init Examples.cls
    (with_selection Examples.no_kwargs (Some (ArgStr "id,name")) (Some (ArgStr "id")))
  = Dynamic_init Examples.cls
      (with_selection Examples.no_kwargs (Some (ArgList ["id"; "name"]))
         (Some (ArgList ["id"]))).
Proof.
  apply (string_selection_same_as_list Examples.cls Examples.no_kwargs
           ["id"; "name"] ["id"]).
  - done.
  - by repeat constructor.
  - done.
  - by repeat constructor.
Defined.

(** X3. The empty string is not the empty selection: [fields=''] is the
    one-name list with the empty name, so unless a field with the empty name
    is declared, construction raises the [FieldError] of the [fields]
    filter, and the empty name is among the names it lists. *)
Theorem empty_string_fields_raises (cls : SerializerClass) (kwargs : Kwargs) :
  kw_fields kwargs = Some (ArgStr "") →
  "" ∉ dom (cls_fields cls) →
  ∃ I E, selection_lists kwargs (kw_context kwargs) = ("" :: I, E)
         ∧ Dynamic_init cls kwargs
           = Raise (FieldError (unknown_filter_message "fields"
                      (elements (unknown_names ("" :: I) (dom (cls_fields cls))))))
         ∧ "" ∈ elements (unknown_names ("" :: I) (dom (cls_fields cls))).
Proof.
  intros Hf Hnot.
  destruct (selection_lists kwargs (kw_context kwargs)) as [I0 E] eqn:Hsel.
  assert (∃ I, I0 = "" :: I) as [I ->].
  { revert Hsel. unfold selection_lists. rewrite Hf. simpl.
    destruct (kw_context kwargs) as [ctx|]; [| intros [= <- _]; by eexists].
    destruct (ctx_request ctx) as [req|]; [| intros [= <- _]; by eexists].
    destruct (top_level ctx); intros [= <- _]; by eexists. }
  exists I, E. split; [done |].
  assert ("" ∈ elements (unknown_names ("" :: I) (dom (cls_fields cls)))) as Hin.
  { apply elem_of_unknown_names. split; [set_solver | done]. }
  split; [| done].
  unfold Dynamic_init. simpl. rewrite Hsel.
  rewrite (verify_unknown ("" :: I) _ "fields"); [done |].
  intros Hempty. rewrite Hempty in Hin. set_solver.
Qed.

Lemma empty_string_fields_raises_witness :
  Dynamic_init Examples.cls
    (with_selection Examples.no_kwargs (Some (ArgStr "")) None)
  = Raise (FieldError (unknown_filter_message "fields" [""])).
Proof.
  destruct (empty_string_fields_raises Examples.cls
              (with_selection Examples.no_kwargs (Some (ArgStr "")) None))
    as (I & E & Hsel & Hrun & _).
  - reflexivity.
  - compute_done.
  - injection Hsel as <- <-. rewrite Hrun. by vm_compute.
Defined.

(** ** What construction raises and keeps *)

(** X4. Construction fails only on an unknown name, and only with a
    [FieldError]: the [pop] of the removal loop never raises [KeyError] and
    the message formatting never raises [TypeError]. *)
Theorem construction_raises_only_field_error
    (cls : SerializerClass) (kwargs : Kwargs) (e : exn) :
  Dynamic_init cls kwargs = Raise e →
  ∃ I E, selection_lists kwargs (kw_context kwargs) = (I, E)
         ∧ (unknown_names I (dom (cls_fields cls)) ≠ ∅
            ∨ unknown_names E (dom (cls_fields cls)) ≠ ∅)
         ∧ ∃ msg, e = FieldError msg.
Proof.
  intros He.
  destruct (selection_lists kwargs (kw_context kwargs)) as [I E] eqn:Hsel.
  exists I, E. split; [done |].
  destruct (decide (unknown_names I (dom (cls_fields cls)) = ∅)) as [HI|HI].
  - destruct (decide (unknown_names E (dom (cls_fields cls)) = ∅)) as [HE|HE].
    + destruct (Dynamic_init_declared cls kwargs I E Hsel HI HE) as (s & Hs & _).
      congruence.
    + split; [by right |]. revert He. unfold Dynamic_init. simpl. rewrite Hsel.
      rewrite (verify_declared _ _ _ HI), (verify_unknown _ _ _ HE).
      intros [= <-]. by eexists.
  - split; [by left |]. revert He. unfold Dynamic_init. simpl. rewrite Hsel.
    rewrite (verify_unknown _ _ _ HI). intros [= <-]. by eexists.
Qed.

Lemma construction_raises_only_field_error_witness :
  ∃ I E, selection_lists UnknownRun.both_unknown (kw_context UnknownRun.both_unknown) = (I, E)
         ∧ (unknown_names I (dom (cls_fields Examples.cls)) ≠ ∅
            ∨ unknown_names E (dom (cls_fields Examples.cls)) ≠ ∅)
         ∧ ∃ msg, FieldError (unknown_filter_message "fields" ["x"]) = FieldError msg.
Proof.
  apply (construction_raises_only_field_error Examples.cls UnknownRun.both_unknown).
  by vm_compute.
Defined.





(** X6. After a successful construction the allowed keys are the selected
    field names together with the extra fields of the class and of the
    [extra_fields] argument; selection never adds an allowed key, and a name
    given as an extra field stays allowed even when the selection removed
    the field of that name. *)
Theorem allowed_keys_after_construction
    (cls : SerializerClass) (kwargs : Kwargs) (s : Serializer) (I E : list string) :
  Strict_init cls kwargs = Return s →
  selection_lists kwargs (kw_context kwargs) = (I, E) →
  get_allowed_keys s
  = spec_selected (dom (cls_fields cls)) I E
      ∪ extra_names (cls_extra_fields cls) ∪ extra_names (kw_extra_fields kwargs)
  ∧ get_allowed_keys s ⊆ get_allowed_keys (Introspectable_init cls kwargs)
  ∧ extra_names (cls_extra_fields cls) ∪ extra_names (kw_extra_fields kwargs)
      ⊆ get_allowed_keys s.
Proof.
  intros Hs Hsel.
  destruct (Dynamic_init_Return_inv cls kwargs s I E Hs Hsel) as (HI & HE & Hlook).
  destruct (Dynamic_init_extra_fields cls kwargs s Hs) as [Hextra _].
  assert (dom (fields s) = spec_selected (dom (cls_fields cls)) I E) as Hdom.
  { apply set_eq. intros k. rewrite elem_of_dom, Hlook.
    case_decide as Hk.
    - rewrite <- elem_of_dom. split; [done | intros _].
      unfold unknown_names in HI. unfold spec_selected in Hk. destruct I; set_solver.
    - split; [by intros [? ?] | done]. }
  assert (_extra_fields s
          = extra_names (cls_extra_fields cls) ∪ extra_names (kw_extra_fields kwargs))
    as Hnames.
  { rewrite Hextra. unfold extra_names. simpl.
    destruct (cls_extra_fields cls); simpl; set_solver. }
  assert (spec_selected (dom (cls_fields cls)) I E ⊆ dom (cls_fields cls)) as Hsub.
  { unfold unknown_names in HI. unfold spec_selected. destruct I; set_solver. }
  unfold get_allowed_keys. rewrite Hdom, Hnames. simpl.
  fold (extra_names (kw_extra_fields kwargs)).
  split; [set_solver |]. split; [| set_solver].
  destruct (cls_extra_fields cls) as [names|]; unfold extra_names; simpl; set_solver.
Qed.

Lemma allowed_keys_after_construction_witness :
  get_allowed_keys StrictRun.self
  = spec_selected (dom (cls_fields Examples.cls)) [] ["slug"]
      ∪ extra_names (cls_extra_fields Examples.cls)
      ∪ extra_names (kw_extra_fields StrictRun.kwargs).
Proof.
  apply (allowed_keys_after_construction Examples.cls StrictRun.kwargs StrictRun.self
           [] ["slug"]).
  - by vm_compute.
  - reflexivity.
Defined.

(** ** Request parameters *)

(** X7. For a top-level instance with a request, the request's [fields]
    and [exclude_fields] values are appended to the keyword arguments'
    lists, so the construction ends as the one that gets the combined lists
    as keyword arguments and has no context; a request parameter therefore
    narrows an include list already given and widens an exclude list. *)
Theorem request_parameters_append
    (cls : SerializerClass) (kwargs : Kwargs) (ctx : Context) (req : Request) :
  kw_context kwargs = Some ctx → ctx_request ctx = Some req → top_level ctx = true →
  let include := _pop_field_list (kw_fields kwargs) ++ getlist req "fields" in
  let exclude := _pop_field_list (kw_exclude_fields kwargs) ++ getlist req "exclude_fields" in
  selection_lists kwargs (kw_context kwargs) = (include, exclude)
  ∧ field_collection (Dynamic_init cls kwargs)
    = field_collection
        (Dynamic_init cls
           (with_context (with_selection kwargs (Some (ArgList include))
                            (Some (ArgList exclude))) None)).
Proof.
  intros Hctx Hreq Htop include exclude.
  assert (selection_lists kwargs (kw_context kwargs) = (include, exclude)) as Hsel.
  { rewrite Hctx. unfold selection_lists. by rewrite Hreq, Htop. }
  split; [done |]. apply field_collection_selection. by rewrite Hsel.
Qed.

Lemma request_parameters_append_witness :
  field_collection (Dynamic_init Examples.cls IncludeExcludeRun.kwargs)
  = field_collection
      (Dynamic_init Examples.cls
         (with_context (with_selection IncludeExcludeRun.kwargs
                          (Some (ArgList ["id"; "name"])) (Some (ArgList ["id"]))) None)).
Proof.
  apply (request_parameters_append Examples.cls IncludeExcludeRun.kwargs
           {| ctx_request := Some IncludeExcludeRun.request; ctx_top_level := None |}
           IncludeExcludeRun.request); reflexivity.
Defined.

(** X8. A request that carries neither a [fields] nor an [exclude_fields]
    parameter changes nothing, top-level or not: construction ends as it
    does without any context. *)
Theorem request_without_parameters_no_effect
    (cls : SerializerClass) (kwargs : Kwargs) (ctx : Context) (req : Request) :
  kw_context kwargs = Some ctx → ctx_request ctx = Some req →
  query_params req !! "fields" = None →
  query_params req !! "exclude_fields" = None →
  field_collection (Dynamic_init cls kwargs)
  = field_collection (Dynamic_init cls (with_context kwargs None)).
Proof.
  intros Hctx Hreq Hf He. apply field_collection_selection. rewrite Hctx. simpl.
  unfold selection_lists, getlist. rewrite Hreq, Hf, He. simpl.
  rewrite !app_nil_r. by destruct (top_level ctx).
Qed.

Lemma request_without_parameters_no_effect_witness :
  field_collection
    (Dynamic_init Examples.cls
       (with_context StrictRun.kwargs
          (Some {| ctx_request := Some {| query_params := {[ "page" := ["2"] ]} |};
                   ctx_top_level := Some true |})))
  = field_collection (Dynamic_init Examples.cls (with_context StrictRun.kwargs None)).
Proof.
  apply (request_without_parameters_no_effect Examples.cls
           (with_context StrictRun.kwargs
              (Some {| ctx_request := Some {| query_params := {[ "page" := ["2"] ]} |};
                       ctx_top_level := Some true |}))
           {| ctx_request := Some {| query_params := {[ "page" := ["2"] ]} |};
              ctx_top_level := Some true |}
           {| query_params := {[ "page" := ["2"] ]} |}).
  - reflexivity.
  - reflexivity.
  - by vm_compute.
  - by vm_compute.
Defined.

(** ** Strict validation as a whole *)

(** X9. The framework's own conversion is reached exactly for a dictionary
    whose keys are all allowed and none of which names a read-only field;
    and whenever [to_internal_value] returns a value, the payload is such a
    dictionary and the value is the one the framework's conversion
    returned. *)
Theorem super_reached_iff_checks_pass
    (super_to_internal_value : Serializer → pyobj → result pyobj)
    (self : Serializer) (data : pyobj) :
  (CallSuperToInternalValue ∈ calls (to_internal_value super_to_internal_value self data)
   ↔ ∃ items, data = PyDict items
              ∧ (∀ k, k ∈ dict_keys items → k ∈ get_allowed_keys self)
              ∧ (∀ k, k ∈ dict_keys items → _is_read_only self k = false))
  ∧ (∀ v, outcome (to_internal_value super_to_internal_value self data) = Return v →
          CallSuperToInternalValue ∈ calls (to_internal_value super_to_internal_value self data)
          ∧ super_to_internal_value self data = Return v).
Proof.
  assert (∀ items, read_only_keys self items = []
                   ↔ ∀ k, k ∈ dict_keys items → _is_read_only self k = false) as Hro.
  { intros items. split.
    - intros Hnil k Hk. destruct (_is_read_only self k) eqn:Hk'; [| done].
      assert (k ∈ read_only_keys self items) as Hin by by apply elem_of_read_only_keys.
      rewrite Hnil in Hin. by apply elem_of_nil in Hin.
    - intros Hall. destruct (read_only_keys self items) as [|k ks] eqn:Hks; [done |].
      assert (k ∈ read_only_keys self items) as Hin by (rewrite Hks; set_solver).
      apply elem_of_read_only_keys in Hin as [Hk Htrue]. rewrite (Hall k Hk) in Htrue.
      done. }
  destruct data as [| | | | |items];
    try (split; [split; [by intros ?%elem_of_nil | by intros (? & [=] & _)] | done]).
  destruct (decide (unknown_keys self items = ∅)) as [Hnone|Hsome].
  - destruct (decide (read_only_keys self items = [])) as [Hnil|Hsome].
    + rewrite to_internal_value_delegates by done. split.
      * split; [intros _ | intros _; unfold calls; simpl; set_solver].
        exists items. split; [done |]. split; [by apply unknown_keys_empty | by apply Hro].
      * intros v Hv. split; [unfold calls; simpl; set_solver | done].
    + rewrite to_internal_value_read_only by done. split; [| done]. split.
      * unfold calls. simpl. set_solver.
      * intros (items' & [= <-] & _ & Hall). by apply Hro in Hall.
  - rewrite to_internal_value_unknown by done. split; [| done]. split.
    + unfold calls. simpl. set_solver.
    + intros (items' & [= <-] & Hall & _). by apply unknown_keys_empty in Hall.
Qed.

(** X10. The checks look at the keys of the payload only: two dictionaries
    with the same keys in the same order enter the same methods, and when
    one of them is rejected by a check the other is rejected with the same
    error, whatever values they carry. *)
Theorem checks_depend_on_keys_only
    (super_to_internal_value : Serializer → pyobj → result pyobj)
    (self : Serializer) (items1 items2 : list (string * pyobj)) :
  dict_keys items1 = dict_keys items2 →
  calls (to_internal_value super_to_internal_value self (PyDict items1))
  = calls (to_internal_value super_to_internal_value self (PyDict items2))
  ∧ (CallSuperToInternalValue
       ∉ calls (to_internal_value super_to_internal_value self (PyDict items1)) →
     to_internal_value super_to_internal_value self (PyDict items1)
     = to_internal_value super_to_internal_value self (PyDict items2)).
Proof.
  intros Hkeys.
  assert (unknown_keys self items1 = unknown_keys self items2) as Hu
    by (unfold unknown_keys; by rewrite Hkeys).
  assert (read_only_keys self items1 = read_only_keys self items2) as Hr
    by (unfold read_only_keys; by rewrite Hkeys).
  destruct (decide (unknown_keys self items1 = ∅)) as [Hnone|Hsome].
  - destruct (decide (read_only_keys self items1 = [])) as [Hnil|Hro].
    + rewrite (to_internal_value_delegates _ self items1) by done.
      rewrite (to_internal_value_delegates _ self items2) by congruence.
      split; [done |]. unfold calls. simpl. intros Hnot. exfalso. apply Hnot. set_solver.
    + rewrite (to_internal_value_read_only _ self items1) by done.
      rewrite (to_internal_value_read_only _ self items2) by congruence.
      by rewrite Hr.
  - rewrite (to_internal_value_unknown _ self items1) by done.
    rewrite (to_internal_value_unknown _ self items2) by congruence.
    by rewrite Hu.
Qed.

Lemma checks_depend_on_keys_only_witness :
  to_internal_value Examples.accept_all StrictRun.self (PyDict StrictRun.read_only_payload)
  = to_internal_value Examples.accept_all StrictRun.self
      (PyDict [("name", PyNone); ("id", PyList [])]).
Proof.
  apply (checks_depend_on_keys_only Examples.accept_all StrictRun.self
           StrictRun.read_only_payload [("name", PyNone); ("id", PyList [])]).
  - reflexivity.
  - compute_done.
Defined.

(** X11. A name that is allowed as an extra field but is not (or no
    longer) in the field collection is never taken for a read-only field: a
    read-only field that the selection removed and that is listed as an
    extra field can be set, and the payload reaches the framework's
    conversion. *)
Theorem removed_extra_field_is_accepted
    (super_to_internal_value : Serializer → pyobj → result pyobj)
    (cls : SerializerClass) (kwargs : Kwargs) (s : Serializer) (I E : list string)
    (n : string) (v : pyobj) :
  Strict_init cls kwargs = Return s →
  selection_lists kwargs (kw_context kwargs) = (I, E) →
  n ∉ spec_selected (dom (cls_fields cls)) I E →
  n ∈ _extra_fields s →
  _is_read_only s n = false
  ∧ to_internal_value super_to_internal_value s (PyDict [(n, v)])
    = (full_run, super_to_internal_value s (PyDict [(n, v)])).
Proof.
  intros Hs Hsel Hremoved Hextra.
  destruct (Dynamic_init_Return_inv cls kwargs s I E Hs Hsel) as (_ & _ & Hlook).
  assert (_is_read_only s n = false) as Hro.
  { unfold _is_read_only. rewrite Hlook. by rewrite decide_False. }
  split; [done |]. apply to_internal_value_delegates.
  - apply unknown_keys_empty. intros k Hk. simpl in Hk.
    apply list_elem_of_singleton in Hk as ->. unfold get_allowed_keys. set_solver.
  - unfold read_only_keys. simpl. rewrite filter_cons, filter_nil.
    rewrite decide_False; [done |]. by rewrite Hro.
Qed.

Lemma removed_extra_field_is_accepted_witness :
  _is_read_only (Introspectable_init Examples.cls ExtraReadOnlyRun.kwargs) "id" = true
  ∧ Strict_init Examples.cls ExtraReadOnlyRun.kwargs = Return ExtraReadOnlyRun.self
  ∧ to_internal_value Examples.accept_all ExtraReadOnlyRun.self (PyDict [("id", PyInt 7)])
    = (full_run, Return (PyDict [("id", PyInt 7)])).
Proof.
  assert (Strict_init Examples.cls ExtraReadOnlyRun.kwargs = Return ExtraReadOnlyRun.self)
    as Hinit by (by vm_compute).
  split; [by vm_compute |]. split; [exact Hinit |].
  apply (removed_extra_field_is_accepted Examples.accept_all Examples.cls
           ExtraReadOnlyRun.kwargs ExtraReadOnlyRun.self [] ["id"] "id" (PyInt 7) Hinit).
  - reflexivity.
  - compute_done.
  - compute_done.
Defined.

(** ** Error messages *)

Lemma has_char_app (c : ascii) (s1 s2 : string) :
  has_char c (s1 +:+ s2) = has_char c s1 || has_char c s2.
Proof.
  induction s1 as [|d s1 IH]; [done |].
  change (String d s1 +:+ s2) with (String d (s1 +:+ s2)). simpl.
  rewrite IH. by rewrite orb_assoc.
Qed.

Lemma format_percent_free (s : string) (args : list string) :
  percent_free s →
  PyStr.format s args = match args with [] => Some s | _ :: _ => None end.
Proof.
  unfold percent_free. induction s as [|c s IH]; [done |]. simpl has_char.
  intros [Hc Hs]%orb_false_elim.
  change (PyStr.format (String c s) args)
    with (match s with
          | String d rest' =>
              if Ascii.eqb c PyStr.percent && Ascii.eqb d PyStr.char_s then
                match args with
                | a :: args' => (fun r => a +:+ r) <$> PyStr.format rest' args'
                | [] => None
                end
              else String c <$> PyStr.format s args
          | EmptyString => String c <$> PyStr.format s args
          end).
  rewrite Hc. simpl. rewrite (IH Hs). by destruct s, args.
Qed.

Lemma format_placeholder (pre post : string) (a : string) (args : list string) :
  percent_free pre →
  PyStr.format (pre +:+ "%s" +:+ post) (a :: args)
  = (λ r, pre +:+ a +:+ r) <$> PyStr.format post args.
Proof.
  unfold percent_free. induction pre as [|c pre IH].
  - intros _. change ("" +:+ "%s" +:+ post) with (String PyStr.percent (String PyStr.char_s post)).
    done.
  - simpl has_char. intros [Hc Hpre]%orb_false_elim.
    change (String c pre +:+ "%s" +:+ post) with (String c (pre +:+ "%s" +:+ post)).
    change (PyStr.format (String c (pre +:+ "%s" +:+ post)) (a :: args))
      with (match pre +:+ "%s" +:+ post with
            | String d rest' =>
                if Ascii.eqb c PyStr.percent && Ascii.eqb d PyStr.char_s then
                  (fun r => a +:+ r) <$> PyStr.format rest' args
                else String c <$> PyStr.format (pre +:+ "%s" +:+ post) (a :: args)
            | EmptyString => String c <$> PyStr.format (pre +:+ "%s" +:+ post) (a :: args)
            end).
    rewrite Hc. simpl. rewrite (IH Hpre).
    destruct (pre +:+ "%s" +:+ post); by destruct (PyStr.format post args).
Qed.

(** X12. [_error_with_fields] keeps its documented contract: a message
    with a single [%s] placeholder (and no other percent sign) comes back
    with the quoted, comma-separated names in the placeholder's place, also
    for an empty list of names; a message without a placeholder is a
    [TypeError], since the names are then left over. *)
Theorem error_with_fields_placeholder (pre post : string) (fields : list string) :
  percent_free pre → percent_free post →
  _error_with_fields (pre +:+ "%s" +:+ post) fields
  = Return (pre +:+ PyStr.join ", " (quoted <$> fields) +:+ post)
  ∧ _error_with_fields (pre +:+ post) fields = Raise TypeError.
Proof.
  intros Hpre Hpost. unfold _error_with_fields. split.
  - rewrite format_placeholder by done. by rewrite format_percent_free.
  - rewrite format_percent_free; [done |].
    unfold percent_free in *. rewrite has_char_app. by rewrite Hpre, Hpost.
Qed.

Lemma error_with_fields_placeholder_witness :
  _error_with_fields "Can not update read only fields: %s." ["id"; "slug"]
  = Return (read_only_message ["id"; "slug"])
  ∧ _error_with_fields "Can not update read only fields: ." ["id"; "slug"] = Raise TypeError.
Proof.
  apply (error_with_fields_placeholder "Can not update read only fields: " "."
           ["id"; "slug"]); reflexivity.
Defined.

